(** * RBDyn: the kinematic tree [rbd::MultiBody] (src/MultiBody.h)

    A shallow embedding of the class [MultiBody] and of its accessors,
    followed by the properties its specification states about them.

    Conventions of the embedding.
    - A C++ [int] is a [Z] in the range [is_int]; a [std::size_t] is an [N]
      below [2 ^ size_bits].  The widths [int_bits] and [size_bits] are
      parameters; the only assumption ever made on them is
      [0 < int_bits <= size_bits].
    - Passing an [int] where a [size_type] is expected converts it modulo
      [2 ^ size_bits] ([to_size_t]); this is what happens at every
      [v[num]] and [v.at(num)] of the header.
    - [std::vector<T>] is a [list T]; [std::unordered_map<int,int>] is a
      [gmap Z Z].
    - A call either returns, throws, or has undefined behaviour
      ([outcome]). *)

From Stdlib Require Import ZArith NArith Lia.
From stdpp Require Import base option list gmap.

Local Open Scope Z_scope.

(** ** Outcomes of a call *)

(** [out_of_range] is [std::out_of_range] of <stdexcept>, the exception the
    header documents for every safe accessor ("@throw std::out_of_range").
    [StructuralMismatch] is modelled from the spec: it is the error kind
    section 7 gives to a failed construction; the header declares no
    exception of its own. *)
Inductive exception : Type :=
| out_of_range
| StructuralMismatch.

Inductive outcome (A : Type) : Type :=
| Returns (a : A)
| Throws (e : exception)
| Undefined.

Arguments Returns {A} a.
Arguments Throws {A} e.
Arguments Undefined {A}.

(** The exception a call ends with, if it ends with one. *)
Definition thrown {A : Type} (o : outcome A) : option exception :=
  match o with
  | Throws e => Some e
  | Returns _ | Undefined => None
  end.

(** ** Standard containers *)

(** [std::vector<T>::operator[](size_type n)]: no bounds check; reading at
    or past [size()] is undefined behaviour. *)
Definition vector_subscript {A : Type} (v : list A) (n : N) : outcome A :=
  match v !! N.to_nat n with
  | Some a => Returns a
  | None => Undefined
  end.

(** [std::vector<T>::at(size_type n)]: throws [std::out_of_range] when
    [n >= size()]. *)
Definition vector_at {A : Type} (v : list A) (n : N) : outcome A :=
  match v !! N.to_nat n with
  | Some a => Returns a
  | None => Throws out_of_range
  end.

(** [m.find(k)->second]: [find] returns [end()] for an absent key, and
    dereferencing [end()] is undefined behaviour. *)
Definition unordered_map_find_second (m : gmap Z Z) (k : Z) : outcome Z :=
  match m !! k with
  | Some i => Returns i
  | None => Undefined
  end.

(** [std::unordered_map<int,int>::at(k)]: throws [std::out_of_range] for an
    absent key. *)
Definition unordered_map_at (m : gmap Z Z) (k : Z) : outcome Z :=
  match m !! k with
  | Some i => Returns i
  | None => Throws out_of_range
  end.

(** [0 <= num < v.size()], for a signed index. *)
Definition in_range {A : Type} (v : list A) (num : Z) : Prop :=
  0 <= num < Z.of_nat (length v).

Section MultiBody.

(** Widths of [int] and of [std::size_t]. *)
Variables int_bits size_bits : Z.

(** [Body] (Body.h), [Joint] (Joint.h) and [sva::PTransform] (SpaceVecAlg)
    are declared outside src/MultiBody.h: they are parameters, together with
    the observers the specification names ([id] of a body; [id], [params]
    and [dof] of a joint). *)
Context {Body Joint PTransform : Type}.
Variable Body_id : Body -> Z.
Variables Joint_id Joint_params Joint_dof : Joint -> Z.

Definition is_int (z : Z) : Prop :=
  - 2 ^ (int_bits - 1) <= z < 2 ^ (int_bits - 1).

(** Implicit conversion of an [int] argument to [size_type]. *)
Definition to_size_t (z : Z) : N := Z.to_N (z mod 2 ^ size_bits).

(** An upper bound of [std::vector<T>::max_size()]: the number of elements
    is a [difference_type], so it is at most [PTRDIFF_MAX]. *)
Definition max_size : Z := 2 ^ (size_bits - 1) - 1.

Definition vector_ok {A : Type} (v : list A) : Prop :=
  Z.of_nat (length v) <= max_size.

(** The private fields of the class, in the order of the header. *)
Record MultiBody : Type := mkMultiBody {
  bodies_ : list Body;
  joints_ : list Joint;
  pred_ : list Z;
  succ_ : list Z;
  parent_ : list Z;
  Xfrom_ : list PTransform;
  Xto_ : list PTransform;
  bodyId2Ind_ : gmap Z Z;
  jointId2Ind_ : gmap Z Z;
  nrParams_ : Z;
  nrDof_ : Z
}.

(** Every vector of the object respects [max_size]. *)
Definition MultiBody_ok (mb : MultiBody) : Prop :=
  vector_ok (bodies_ mb) /\ vector_ok (joints_ mb) /\
  vector_ok (pred_ mb) /\ vector_ok (succ_ mb) /\ vector_ok (parent_ mb) /\
  vector_ok (Xfrom_ mb) /\ vector_ok (Xto_ mb).

(** ** Accessors of the header, in source order *)

Definition nrBodies (mb : MultiBody) : N := N.of_nat (length (bodies_ mb)).
Definition nrJoints (mb : MultiBody) : N := N.of_nat (length (joints_ mb)).

Definition bodies (mb : MultiBody) : list Body := bodies_ mb.
Definition body (mb : MultiBody) (num : Z) : outcome Body :=
  vector_subscript (bodies_ mb) (to_size_t num).

Definition joints (mb : MultiBody) : list Joint := joints_ mb.
Definition joint (mb : MultiBody) (num : Z) : outcome Joint :=
  vector_subscript (joints_ mb) (to_size_t num).

Definition predecessors (mb : MultiBody) : list Z := pred_ mb.
Definition predecessor (mb : MultiBody) (num : Z) : outcome Z :=
  vector_subscript (pred_ mb) (to_size_t num).

Definition successors (mb : MultiBody) : list Z := succ_ mb.
Definition successor (mb : MultiBody) (num : Z) : outcome Z :=
  vector_subscript (succ_ mb) (to_size_t num).

Definition parents (mb : MultiBody) : list Z := parent_ mb.
Definition parent (mb : MultiBody) (num : Z) : outcome Z :=
  vector_subscript (parent_ mb) (to_size_t num).

Definition transformsFrom (mb : MultiBody) : list PTransform := Xfrom_ mb.
Definition transformFrom (mb : MultiBody) (num : Z) : outcome PTransform :=
  vector_subscript (Xfrom_ mb) (to_size_t num).

Definition transformsTo (mb : MultiBody) : list PTransform := Xto_ mb.
Definition transformTo (mb : MultiBody) (num : Z) : outcome PTransform :=
  vector_subscript (Xto_ mb) (to_size_t num).

Definition bodyIndexById (mb : MultiBody) (id : Z) : outcome Z :=
  unordered_map_find_second (bodyId2Ind_ mb) id.
Definition jointIndexById (mb : MultiBody) (id : Z) : outcome Z :=
  unordered_map_find_second (jointId2Ind_ mb) id.

Definition nrParams (mb : MultiBody) : Z := nrParams_ mb.
Definition nrDof (mb : MultiBody) : Z := nrDof_ mb.

(** Safe accessors ("safe accessors version for python binding"). *)

Definition sBody (mb : MultiBody) (num : Z) : outcome Body :=
  vector_at (bodies_ mb) (to_size_t num).
Definition sJoint (mb : MultiBody) (num : Z) : outcome Joint :=
  vector_at (joints_ mb) (to_size_t num).
Definition sPredecessor (mb : MultiBody) (num : Z) : outcome Z :=
  vector_at (pred_ mb) (to_size_t num).
Definition sSuccessor (mb : MultiBody) (num : Z) : outcome Z :=
  vector_at (succ_ mb) (to_size_t num).
Definition sParent (mb : MultiBody) (num : Z) : outcome Z :=
  vector_at (parent_ mb) (to_size_t num).
Definition sTransformFrom (mb : MultiBody) (num : Z) : outcome PTransform :=
  vector_at (Xfrom_ mb) (to_size_t num).
Definition sTransformTo (mb : MultiBody) (num : Z) : outcome PTransform :=
  vector_at (Xto_ mb) (to_size_t num).
Definition sBodyIndexById (mb : MultiBody) (id : Z) : outcome Z :=
  unordered_map_at (bodyId2Ind_ mb) id.
Definition sJointIndexById (mb : MultiBody) (id : Z) : outcome Z :=
  unordered_map_at (jointId2Ind_ mb) id.

(** ** Construction *)

(** Modelled from the spec: the body of the constructor
    [MultiBody::MultiBody(bodies, joints, pred, succ, parent, Xfrom, Xto)]
    is in MultiBody.cpp, which is not among the sources; the header only
    declares it.  The specification (section 4.1, construction contract)
    says that it validates the lengths ([bodies.size() == parent.size()],
    [joints.size() == pred.size() == succ.size() == Xfrom.size() ==
    Xto.size()]) and fails with [StructuralMismatch] when they disagree,
    that it builds each id table by one pass over the bodies and one over
    the joints, that it sums [params] and [dof] over the joints, and that it
    stores the sequences.  On a repeated id the specification describes the
    reference behaviour twice (sections 4.1 and 9): a later entry overwrites
    the earlier one and construction does not fail; the pass below writes
    the table the same way, [table[id] = i]. *)
Fixpoint index_by_id {A : Type} (id_of : A -> Z) (v : list A) (i : Z)
    (table : gmap Z Z) : gmap Z Z :=
  match v with
  | [] => table
  | x :: rest => index_by_id id_of rest (i + 1) (<[id_of x := i]> table)
  end.

(** Modelled from the spec: the length invariants (1) and (2) of section 3,
    checked by the constructor. *)
Definition lengths_consistent (bodies : list Body) (joints : list Joint)
    (pred succ parent : list Z) (Xfrom Xto : list PTransform) : bool :=
  Nat.eqb (length bodies) (length parent) &&
  Nat.eqb (length joints) (length pred) &&
  Nat.eqb (length pred) (length succ) &&
  Nat.eqb (length succ) (length Xfrom) &&
  Nat.eqb (length Xfrom) (length Xto).

(** Modelled from the spec: the running total [total += field(j)] over the
    joints, from [0]. *)
Definition accumulate (field : Joint -> Z) (joints : list Joint) : Z :=
  fold_left (fun total j => total + field j) joints 0.

(** Modelled from the spec: the constructor itself (see [index_by_id]). *)
Definition MultiBody_new (bodies : list Body) (joints : list Joint)
    (pred succ parent : list Z) (Xfrom Xto : list PTransform)
    : outcome MultiBody :=
  if lengths_consistent bodies joints pred succ parent Xfrom Xto then
    Returns {|
      bodies_ := bodies;
      joints_ := joints;
      pred_ := pred;
      succ_ := succ;
      parent_ := parent;
      Xfrom_ := Xfrom;
      Xto_ := Xto;
      bodyId2Ind_ := index_by_id Body_id bodies 0 ∅;
      jointId2Ind_ := index_by_id Joint_id joints 0 ∅;
      nrParams_ := accumulate Joint_params joints;
      nrDof_ := accumulate Joint_dof joints
    |}
  else Throws StructuralMismatch.

(** ** Calls on an object

    [query] names a call of the public interface with its argument and
    [answer] is what the accessor evaluates to.  Further down each
    member-function body is also given as a [statement] executed on the
    state of the object ([method_body], [exec], [call]): a call that
    returns or throws leaves an object behind, which need not be the one it
    started from; after undefined behaviour nothing is known. *)
Inductive query : Type :=
| q_nrBodies | q_nrJoints
| q_bodies | q_body (num : Z)
| q_joints | q_joint (num : Z)
| q_predecessors | q_predecessor (num : Z)
| q_successors | q_successor (num : Z)
| q_parents | q_parent (num : Z)
| q_transformsFrom | q_transformFrom (num : Z)
| q_transformsTo | q_transformTo (num : Z)
| q_bodyIndexById (id : Z) | q_jointIndexById (id : Z)
| q_nrParams | q_nrDof
| q_sBody (num : Z) | q_sJoint (num : Z)
| q_sPredecessor (num : Z) | q_sSuccessor (num : Z) | q_sParent (num : Z)
| q_sTransformFrom (num : Z) | q_sTransformTo (num : Z)
| q_sBodyIndexById (id : Z) | q_sJointIndexById (id : Z).

Inductive value : Type :=
| v_size (n : N)
| v_int (z : Z)
| v_Body (b : Body)
| v_Joint (j : Joint)
| v_PTransform (X : PTransform)
| v_Bodies (v : list Body)
| v_Joints (v : list Joint)
| v_ints (v : list Z)
| v_PTransforms (v : list PTransform).

Definition outcome_map {A B : Type} (f : A -> B) (o : outcome A) : outcome B :=
  match o with
  | Returns a => Returns (f a)
  | Throws e => Throws e
  | Undefined => Undefined
  end.

Definition answer (q : query) (mb : MultiBody) : outcome value :=
  match q with
  | q_nrBodies => Returns (v_size (nrBodies mb))
  | q_nrJoints => Returns (v_size (nrJoints mb))
  | q_bodies => Returns (v_Bodies (bodies mb))
  | q_body num => outcome_map v_Body (body mb num)
  | q_joints => Returns (v_Joints (joints mb))
  | q_joint num => outcome_map v_Joint (joint mb num)
  | q_predecessors => Returns (v_ints (predecessors mb))
  | q_predecessor num => outcome_map v_int (predecessor mb num)
  | q_successors => Returns (v_ints (successors mb))
  | q_successor num => outcome_map v_int (successor mb num)
  | q_parents => Returns (v_ints (parents mb))
  | q_parent num => outcome_map v_int (parent mb num)
  | q_transformsFrom => Returns (v_PTransforms (transformsFrom mb))
  | q_transformFrom num => outcome_map v_PTransform (transformFrom mb num)
  | q_transformsTo => Returns (v_PTransforms (transformsTo mb))
  | q_transformTo num => outcome_map v_PTransform (transformTo mb num)
  | q_bodyIndexById id => outcome_map v_int (bodyIndexById mb id)
  | q_jointIndexById id => outcome_map v_int (jointIndexById mb id)
  | q_nrParams => Returns (v_int (nrParams mb))
  | q_nrDof => Returns (v_int (nrDof mb))
  | q_sBody num => outcome_map v_Body (sBody mb num)
  | q_sJoint num => outcome_map v_Joint (sJoint mb num)
  | q_sPredecessor num => outcome_map v_int (sPredecessor mb num)
  | q_sSuccessor num => outcome_map v_int (sSuccessor mb num)
  | q_sParent num => outcome_map v_int (sParent mb num)
  | q_sTransformFrom num => outcome_map v_PTransform (sTransformFrom mb num)
  | q_sTransformTo num => outcome_map v_PTransform (sTransformTo mb num)
  | q_sBodyIndexById id => outcome_map v_int (sBodyIndexById mb id)
  | q_sJointIndexById id => outcome_map v_int (sJointIndexById mb id)
  end.

(** What the caller of a defined call observes. *)
Inductive reply : Type :=
| Value (v : value)
| Raised (e : exception).

(** What is observed of an outcome; nothing of undefined behaviour. *)
Definition observed (o : outcome value) : option reply :=
  match o with
  | Returns v => Some (Value v)
  | Throws e => Some (Raised e)
  | Undefined => None
  end.

(** *** Member-function bodies as steps on the object

    The private fields, by kind. *)
Inductive vector_field : Type :=
| bodies_field | joints_field | pred_field | succ_field | parent_field
| Xfrom_field | Xto_field.

Inductive table_field : Type :=
| bodyId2Ind_field | jointId2Ind_field.

Inductive total_field : Type :=
| nrParams_field | nrDof_field.

(** A vector field read as a whole, and element by element. *)
Definition whole (f : vector_field) (mb : MultiBody) : value :=
  match f with
  | bodies_field => v_Bodies (bodies_ mb)
  | joints_field => v_Joints (joints_ mb)
  | pred_field => v_ints (pred_ mb)
  | succ_field => v_ints (succ_ mb)
  | parent_field => v_ints (parent_ mb)
  | Xfrom_field => v_PTransforms (Xfrom_ mb)
  | Xto_field => v_PTransforms (Xto_ mb)
  end.

Definition elements (f : vector_field) (mb : MultiBody) : list value :=
  match f with
  | bodies_field => v_Body <$> bodies_ mb
  | joints_field => v_Joint <$> joints_ mb
  | pred_field => v_int <$> pred_ mb
  | succ_field => v_int <$> succ_ mb
  | parent_field => v_int <$> parent_ mb
  | Xfrom_field => v_PTransform <$> Xfrom_ mb
  | Xto_field => v_PTransform <$> Xto_ mb
  end.

Definition table (f : table_field) (mb : MultiBody) : gmap Z Z :=
  match f with
  | bodyId2Ind_field => bodyId2Ind_ mb
  | jointId2Ind_field => jointId2Ind_ mb
  end.

(** The object with the table [f] replaced by [t]; every other field is
    kept. *)
Definition store_table (f : table_field) (t : gmap Z Z) (mb : MultiBody)
    : MultiBody :=
  match f with
  | bodyId2Ind_field =>
      mkMultiBody (bodies_ mb) (joints_ mb) (pred_ mb) (succ_ mb) (parent_ mb)
        (Xfrom_ mb) (Xto_ mb) t (jointId2Ind_ mb) (nrParams_ mb) (nrDof_ mb)
  | jointId2Ind_field =>
      mkMultiBody (bodies_ mb) (joints_ mb) (pred_ mb) (succ_ mb) (parent_ mb)
        (Xfrom_ mb) (Xto_ mb) (bodyId2Ind_ mb) t (nrParams_ mb) (nrDof_ mb)
  end.

Definition total (f : total_field) (mb : MultiBody) : Z :=
  match f with
  | nrParams_field => nrParams_ mb
  | nrDof_field => nrDof_ mb
  end.

(** The shapes a member-function body over these fields can take: one
    [return] of a standard-container member applied to a field.  The header
    uses all of them but [return_table_subscript]: [t[id]] is
    [std::unordered_map::operator[]], the one member here that is not
    [const]; it inserts a value-initialised entry when the key is absent. *)
Inductive statement : Type :=
| return_size (f : vector_field)
| return_field (f : vector_field)
| return_subscript (f : vector_field) (num : Z)
| return_at (f : vector_field) (num : Z)
| return_find_second (f : table_field) (id : Z)
| return_table_at (f : table_field) (id : Z)
| return_table_subscript (f : table_field) (id : Z)
| return_total (f : total_field).

(** The members of the standard containers that are declared [const]. *)
Definition const_member (s : statement) : bool :=
  match s with
  | return_table_subscript _ _ => false
  | _ => true
  end.

(** A call whose result is [o] and that leaves the object [mb] behind;
    [None] is undefined behaviour, after which nothing is known. *)
Definition leaving (mb : MultiBody) (o : outcome value)
    : option (reply * MultiBody) :=
  match observed o with
  | Some r => Some (r, mb)
  | None => None
  end.

(** Execution of a body on the object [mb]: the reply and the object
    afterwards. *)
Definition exec (s : statement) (mb : MultiBody)
    : option (reply * MultiBody) :=
  match s with
  | return_size f =>
      leaving mb (Returns (v_size (N.of_nat (length (elements f mb)))))
  | return_field f => leaving mb (Returns (whole f mb))
  | return_subscript f num =>
      leaving mb (vector_subscript (elements f mb) (to_size_t num))
  | return_at f num =>
      leaving mb (vector_at (elements f mb) (to_size_t num))
  | return_find_second f id =>
      leaving mb (outcome_map v_int (unordered_map_find_second (table f mb) id))
  | return_table_at f id =>
      leaving mb (outcome_map v_int (unordered_map_at (table f mb) id))
  | return_table_subscript f id =>
      match table f mb !! id with
      | Some i => leaving mb (Returns (v_int i))
      | None =>
          leaving (store_table f (<[id := 0]> (table f mb)) mb)
            (Returns (v_int 0))
      end
  | return_total f => leaving mb (Returns (v_int (total f mb)))
  end.

(** The body of each query, as the header writes it. *)
Definition method_body (q : query) : statement :=
  match q with
  | q_nrBodies => return_size bodies_field
  | q_nrJoints => return_size joints_field
  | q_bodies => return_field bodies_field
  | q_body num => return_subscript bodies_field num
  | q_joints => return_field joints_field
  | q_joint num => return_subscript joints_field num
  | q_predecessors => return_field pred_field
  | q_predecessor num => return_subscript pred_field num
  | q_successors => return_field succ_field
  | q_successor num => return_subscript succ_field num
  | q_parents => return_field parent_field
  | q_parent num => return_subscript parent_field num
  | q_transformsFrom => return_field Xfrom_field
  | q_transformFrom num => return_subscript Xfrom_field num
  | q_transformsTo => return_field Xto_field
  | q_transformTo num => return_subscript Xto_field num
  | q_bodyIndexById id => return_find_second bodyId2Ind_field id
  | q_jointIndexById id => return_find_second jointId2Ind_field id
  | q_nrParams => return_total nrParams_field
  | q_nrDof => return_total nrDof_field
  | q_sBody num => return_at bodies_field num
  | q_sJoint num => return_at joints_field num
  | q_sPredecessor num => return_at pred_field num
  | q_sSuccessor num => return_at succ_field num
  | q_sParent num => return_at parent_field num
  | q_sTransformFrom num => return_at Xfrom_field num
  | q_sTransformTo num => return_at Xto_field num
  | q_sBodyIndexById id => return_table_at bodyId2Ind_field id
  | q_sJointIndexById id => return_table_at jointId2Ind_field id
  end.

(** One call of a query: its body executed on the object. *)
Definition call (q : query) (mb : MultiBody) : option (reply * MultiBody) :=
  exec (method_body q) mb.

(** A sequence of calls, each on the object the previous one left. *)
Fixpoint calls (qs : list query) (mb : MultiBody)
    : option (list reply * MultiBody) :=
  match qs with
  | [] => Some ([], mb)
  | q :: rest =>
      match call q mb with
      | None => None
      | Some (r, mb1) =>
          match calls rest mb1 with
          | None => None
          | Some (rs, mb2) => Some (r :: rs, mb2)
          end
      end
  end.

(** The queries that read an element without a check: the only ones whose
    behaviour can be undefined. *)
Definition unchecked (q : query) : bool :=
  match q with
  | q_body _ | q_joint _ | q_predecessor _ | q_successor _ | q_parent _
  | q_transformFrom _ | q_transformTo _
  | q_bodyIndexById _ | q_jointIndexById _ => true
  | _ => false
  end.

(** ** Vocabulary of the statements *)

(** The sum of a sequence of integers. *)
Definition Zsum (l : list Z) : Z := foldr Z.add 0 l.

(** At an index within [v], the checked and the unchecked accessor both
    return the element of [v] at that position. *)
Definition agree_in_range {A : Type} (v : list A)
    (checked unchecked : Z -> outcome A) (num : Z) : Prop :=
  in_range v num ->
  exists a, v !! Z.to_nat num = Some a /\
            checked num = Returns a /\ unchecked num = Returns a.

(** For an id of the table, the checked and the unchecked lookup both return
    the index the table holds. *)
Definition agree_on_id (table : gmap Z Z)
    (checked unchecked : Z -> outcome Z) (id : Z) : Prop :=
  is_Some (table !! id) ->
  exists i, table !! id = Some i /\
            checked id = Returns i /\ unchecked id = Returns i.

(** A negative index is converted to a position beyond the size of [v];
    the checked accessor throws [out_of_range] there, exactly as it does at
    any index [past] the end, and returns no element. *)
Definition negative_is_past_the_end {A : Type} (v : list A)
    (checked : Z -> outcome A) (num : Z) : Prop :=
  (N.of_nat (length v) < to_size_t num)%N /\
  checked num = Throws out_of_range /\
  (forall a, checked num <> Returns a) /\
  forall past, is_int past -> Z.of_nat (length v) <= past ->
               checked past = checked num.

(** The length invariants (1) and (2) of the data model. *)
Definition length_invariants (bodies : list Body) (joints : list Joint)
    (pred succ parent : list Z) (Xfrom Xto : list PTransform) : Prop :=
  length bodies = length parent /\
  length joints = length pred /\ length pred = length succ /\
  length succ = length Xfrom /\ length Xfrom = length Xto.

(** The view and the per-element accessor describe one sequence.  At an
    index within the view, subscripting the view and calling the accessor
    return the same element, the one at that position of the view.  And, the
    view being a vector (at most [max_size] elements), the accessor returns
    exactly at the indices within the view, and whatever it returns is the
    element of the view at that position. *)
Definition view_agrees {A : Type} (view : list A)
    (accessor : Z -> outcome A) (num : Z) : Prop :=
  (in_range view num ->
   exists a, view !! Z.to_nat num = Some a /\
             vector_subscript view (to_size_t num) = Returns a /\
             accessor num = Returns a) /\
  (vector_ok view ->
   ((exists a, accessor num = Returns a) <-> in_range view num) /\
   (forall a, accessor num = Returns a <->
              0 <= num /\ view !! Z.to_nat num = Some a)).

(** Position [k] is the last one of [v] that carries the id [x]. *)
Definition last_with_id {A : Type} (id_of : A -> Z) (v : list A) (x : Z)
    (k : nat) : Prop :=
  (exists a, v !! k = Some a /\ id_of a = x) /\
  forall k' a', (k < k')%nat -> v !! k' = Some a' -> id_of a' <> x.

(** ** Vocabulary of the further properties *)

(** The call returned a value. *)
Definition returned {A : Type} (o : outcome A) : Prop :=
  exists a, o = Returns a.

(** The safe accessor returns what the unchecked one returns, and throws
    [out_of_range] exactly where the unchecked one is undefined. *)
Definition hardens {A : Type} (checked unchecked : outcome A) : Prop :=
  (forall a, checked = Returns a <-> unchecked = Returns a) /\
  (checked = Throws out_of_range <-> unchecked = Undefined).

(** The nine safe accessors, the [s]-prefixed queries. *)
Definition safe (q : query) : bool :=
  match q with
  | q_sBody _ | q_sJoint _ | q_sPredecessor _ | q_sSuccessor _ | q_sParent _
  | q_sTransformFrom _ | q_sTransformTo _
  | q_sBodyIndexById _ | q_sJointIndexById _ => true
  | _ => false
  end.

(** The shape the constructor's parameters are documented with: [parent]
    holds one entry per body; [pred], [succ], [Xfrom] and [Xto] hold one
    entry per joint. *)
Definition parallel_vectors (mb : MultiBody) : Prop :=
  length (parent_ mb) = length (bodies_ mb) /\
  length (pred_ mb) = length (joints_ mb) /\
  length (succ_ mb) = length (joints_ mb) /\
  length (Xfrom_ mb) = length (joints_ mb) /\
  length (Xto_ mb) = length (joints_ mb).

(** Every position of [v] can be written as an [int]. *)
Definition int_indexable {A : Type} (v : list A) : Prop :=
  Z.of_nat (length v) <= 2 ^ (int_bits - 1).

(** The loop [for (int i = 0; i < view.size(); ++i) accessor(i)] returns at
    every step, and returns the elements of [view] in order. *)
Definition enumerates {A : Type} (view : list A)
    (accessor : Z -> outcome A) : Prop :=
  (fun i : nat => accessor (Z.of_nat i)) <$> seq 0 (length view)
  = Returns <$> view.

End MultiBody.

Arguments MultiBody : clear implicits.
Arguments value : clear implicits.
Arguments reply : clear implicits.

(** ** Concrete instances

    Used to run the definitions: an LP64 platform, bodies as pairs
    [(id, mass)], joints as triples [(id, params, dof)], transforms as
    labels. *)

Definition lp64_int_bits : Z := 32.
Definition lp64_size_bits : Z := 64.

Definition pair_Body_id (b : Z * Z) : Z := b.1.
Definition triple_Joint_id (j : Z * Z * Z) : Z := j.1.1.
Definition triple_Joint_params (j : Z * Z * Z) : Z := j.1.2.
Definition triple_Joint_dof (j : Z * Z * Z) : Z := j.2.

(** The constructor over these bodies and joints. *)
Definition new_tree (bodies : list (Z * Z)) (joints : list (Z * Z * Z))
    (pred succ parent : list Z) (Xfrom Xto : list nat)
    : outcome (MultiBody (Z * Z) (Z * Z * Z) nat) :=
  MultiBody_new pair_Body_id triple_Joint_id triple_Joint_params
    triple_Joint_dof bodies joints pred succ parent Xfrom Xto.

(** End-to-end scenario 1 of the specification: three bodies with ids 10,
    20, 30 and two joints with ids 100, 101. *)
Definition bodies1 : list (Z * Z) := [(10, 1); (20, 1); (30, 1)].
Definition joints1 : list (Z * Z * Z) := [(100, 1, 1); (101, 1, 1)].
Definition pred1 : list Z := [0; 0].
Definition succ1 : list Z := [0; 1].
Definition parent1 : list Z := [-1; 0; 0].
Definition Xfrom1 : list nat := [0%nat; 1%nat].
Definition Xto1 : list nat := [2%nat; 3%nat].

Definition scenario1 : outcome (MultiBody (Z * Z) (Z * Z * Z) nat) :=
  new_tree bodies1 joints1 pred1 succ1 parent1 Xfrom1 Xto1.

(** The object scenario 1 builds, field by field. *)
Definition tree3 : MultiBody (Z * Z) (Z * Z * Z) nat :=
  {| bodies_ := bodies1;
     joints_ := joints1;
     pred_ := pred1;
     succ_ := succ1;
     parent_ := parent1;
     Xfrom_ := Xfrom1;
     Xto_ := Xto1;
     bodyId2Ind_ := <[30 := 2]> (<[20 := 1]> (<[10 := 0]> ∅));
     jointId2Ind_ := <[101 := 1]> (<[100 := 0]> ∅);
     nrParams_ := 2;
     nrDof_ := 2 |}.

(** Three bodies with two parents: the mismatch the specification names. *)
Definition parent_short : list Z := [-1; 0].

(** The object of scenario 1 with its id tables filled in another order. *)
Definition tree3_refilled : MultiBody (Z * Z) (Z * Z * Z) nat :=
  {| bodies_ := bodies1;
     joints_ := joints1;
     pred_ := pred1;
     succ_ := succ1;
     parent_ := parent1;
     Xfrom_ := Xfrom1;
     Xto_ := Xto1;
     bodyId2Ind_ := <[10 := 0]> (<[30 := 2]> (<[20 := 1]> ∅));
     jointId2Ind_ := <[100 := 0]> (<[101 := 1]> ∅);
     nrParams_ := 2;
     nrDof_ := 2 |}.

(** End-to-end scenario 2 of the specification: one body, one joint. *)
Definition scenario2 : outcome (MultiBody (Z * Z) (Z * Z * Z) nat) :=
  new_tree [(1, 1)] [(1, 1, 1)] [0] [0] [-1] [0%nat] [0%nat].

(** * Properties *)

(** ** Construction: the id tables, the totals, the length check *)

Section Construction.

Context {Body Joint PTransform : Type}.
Variable Body_id : Body -> Z.
Variables Joint_id Joint_params Joint_dof : Joint -> Z.

(** *** The id tables *)

Lemma index_by_id_absent {A : Type} (id_of : A -> Z) (v : list A) (i : Z)
    (table : gmap Z Z) (x : Z) :
  (forall a, a ∈ v -> id_of a <> x) ->
  index_by_id id_of v i table !! x = table !! x.
Proof.
  revert i table. induction v as [| a v IH]; intros i table Hfresh; simpl.
  - reflexivity.
  - rewrite IH.
    + apply lookup_insert_ne. apply Hfresh. left.
    + intros b Hb. apply Hfresh. right. exact Hb.
Qed.

Lemma index_by_id_last {A : Type} (id_of : A -> Z) (v : list A) (i : Z)
    (table : gmap Z Z) (x : Z) (k : nat) :
  last_with_id id_of v x k ->
  index_by_id id_of v i table !! x = Some (i + Z.of_nat k).
Proof.
  revert i table k. induction v as [| a v IH]; intros i table k [[b [Hb Hid]] Hlast].
  - discriminate.
  - destruct k as [| k]; simpl in *.
    + injection Hb as ->. rewrite index_by_id_absent.
      * rewrite Hid, lookup_insert_eq. f_equal. lia.
      * intros c Hc. apply list_elem_of_lookup in Hc as [k' Hk'].
        apply (Hlast (S k') c); [lia | exact Hk'].
    + rewrite (IH (i + 1) _ k).
      * f_equal. lia.
      * split; [exists b; auto |].
        intros k' c Hlt Hc. apply (Hlast (S k') c); [lia | exact Hc].
Qed.

Lemma NoDup_last_with_id {A : Type} (id_of : A -> Z) (v : list A) (k : nat)
    (a : A) :
  NoDup (id_of <$> v) -> v !! k = Some a -> last_with_id id_of v (id_of a) k.
Proof.
  intros Hnd Hk. split; [exists a; auto |].
  intros k' a' Hlt Hk' Heq.
  assert (k = k'); [| lia].
  apply (NoDup_lookup (id_of <$> v) k k' (id_of a)); [exact Hnd | |].
  - rewrite list_lookup_fmap, Hk. reflexivity.
  - rewrite list_lookup_fmap, Hk'. simpl. f_equal. exact Heq.
Qed.

(** *** The totals *)

Lemma fold_left_add_Zsum (field : Joint -> Z) (joints : list Joint) (total : Z) :
  fold_left (fun total j => total + field j) joints total
  = total + Zsum (field <$> joints).
Proof.
  revert total. induction joints as [| j joints IH]; intros total.
  - simpl. unfold Zsum. simpl. lia.
  - rewrite fmap_cons. change (Zsum (field j :: (field <$> joints)))
      with (field j + Zsum (field <$> joints)).
    simpl fold_left. rewrite IH. lia.
Qed.

Lemma accumulate_Zsum (field : Joint -> Z) (joints : list Joint) :
  accumulate field joints = Zsum (field <$> joints).
Proof. unfold accumulate. rewrite fold_left_add_Zsum. apply Z.add_0_l. Qed.

(** *** The length check *)

Lemma lengths_consistent_true (bodies : list Body) (joints : list Joint)
    (pred succ parent : list Z) (Xfrom Xto : list PTransform) :
  lengths_consistent bodies joints pred succ parent Xfrom Xto = true <->
  length_invariants bodies joints pred succ parent Xfrom Xto.
Proof.
  unfold lengths_consistent, length_invariants.
  rewrite !andb_true_iff, !Nat.eqb_eq. tauto.
Qed.

(** *** The constructor *)

Lemma MultiBody_new_valid (bodies : list Body) (joints : list Joint)
    (pred succ parent : list Z) (Xfrom Xto : list PTransform) :
  length_invariants bodies joints pred succ parent Xfrom Xto ->
  MultiBody_new Body_id Joint_id Joint_params Joint_dof
    bodies joints pred succ parent Xfrom Xto
  = Returns {|
      bodies_ := bodies; joints_ := joints; pred_ := pred; succ_ := succ;
      parent_ := parent; Xfrom_ := Xfrom; Xto_ := Xto;
      bodyId2Ind_ := index_by_id Body_id bodies 0 ∅;
      jointId2Ind_ := index_by_id Joint_id joints 0 ∅;
      nrParams_ := accumulate Joint_params joints;
      nrDof_ := accumulate Joint_dof joints |}.
Proof.
  intros Hlen. apply lengths_consistent_true in Hlen.
  unfold MultiBody_new. rewrite Hlen. reflexivity.
Qed.

(** C1. For every construction whose lengths are consistent, the
    constructor returns an object, [nrParams()] of that object is the sum of
    [params] over the joints given to the constructor, and [nrDof()] is the
    sum of [dof] over them. *)
Theorem nrParams_nrDof_are_sums (bodies : list Body) (joints : list Joint)
    (pred succ parent : list Z) (Xfrom Xto : list PTransform) :
  length_invariants bodies joints pred succ parent Xfrom Xto ->
  exists mb,
    MultiBody_new Body_id Joint_id Joint_params Joint_dof
      bodies joints pred succ parent Xfrom Xto = Returns mb /\
    nrParams mb = Zsum (Joint_params <$> joints) /\
    nrDof mb = Zsum (Joint_dof <$> joints).
Proof.
  intros Hlen. eexists. split; [apply MultiBody_new_valid, Hlen |].
  unfold nrParams, nrDof. simpl. split; apply accumulate_Zsum.
Qed.

(** C2. For every construction whose lengths are consistent, the
    constructor returns an object on which, when the body ids are pairwise
    distinct, [sBodyIndexById] applied to the id of the body at position
    [i] of the input returns [i]; and likewise [sJointIndexById] for the
    joints when the joint ids are pairwise distinct. *)
Theorem ids_resolve_to_input_positions (bodies : list Body)
    (joints : list Joint) (pred succ parent : list Z)
    (Xfrom Xto : list PTransform) :
  length_invariants bodies joints pred succ parent Xfrom Xto ->
  exists mb,
    MultiBody_new Body_id Joint_id Joint_params Joint_dof
      bodies joints pred succ parent Xfrom Xto = Returns mb /\
    (NoDup (Body_id <$> bodies) ->
     forall (i : nat) (b : Body), bodies !! i = Some b ->
       sBodyIndexById mb (Body_id b) = Returns (Z.of_nat i)) /\
    (NoDup (Joint_id <$> joints) ->
     forall (i : nat) (j : Joint), joints !! i = Some j ->
       sJointIndexById mb (Joint_id j) = Returns (Z.of_nat i)).
Proof.
  intros Hlen. eexists. split; [apply MultiBody_new_valid, Hlen |].
  unfold sBodyIndexById, sJointIndexById, unordered_map_at. simpl.
  split; intros Hnd i x Hx;
    rewrite (index_by_id_last _ _ 0 ∅ _ i) by (apply NoDup_last_with_id; auto);
    reflexivity.
Qed.

(** C6. A construction whose lengths violate the length invariants throws
    [StructuralMismatch]; it returns no object. *)
Theorem mismatched_lengths_are_rejected (bodies : list Body)
    (joints : list Joint) (pred succ parent : list Z)
    (Xfrom Xto : list PTransform) :
  ~ length_invariants bodies joints pred succ parent Xfrom Xto ->
  MultiBody_new Body_id Joint_id Joint_params Joint_dof
    bodies joints pred succ parent Xfrom Xto = Throws StructuralMismatch /\
  forall mb,
    MultiBody_new Body_id Joint_id Joint_params Joint_dof
      bodies joints pred succ parent Xfrom Xto <> Returns mb.
Proof.
  intros Hbad. unfold MultiBody_new.
  destruct (lengths_consistent bodies joints pred succ parent Xfrom Xto) eqn:Hc.
  - exfalso. apply Hbad, lengths_consistent_true, Hc.
  - split; [reflexivity | discriminate].
Qed.

End Construction.

(** ** Queries as steps on the state of the object *)

Section Calls.

Variable size_bits : Z.
Context {Body Joint PTransform : Type}.

Lemma leaving_inv (mb mb' : MultiBody Body Joint PTransform)
    (o : outcome (value Body Joint PTransform))
    (r : reply Body Joint PTransform) :
  leaving mb o = Some (r, mb') -> mb' = mb /\ observed o = Some r.
Proof.
  unfold leaving. destruct (observed o) as [r0 |]; [| discriminate].
  intros [= -> ->]. auto.
Qed.

(** A body made of a [const] member leaves the object it ran on. *)
Lemma exec_const_member (s : statement)
    (mb mb' : MultiBody Body Joint PTransform)
    (r : reply Body Joint PTransform) :
  const_member s = true -> exec size_bits s mb = Some (r, mb') -> mb' = mb.
Proof.
  destruct s; simpl; intros Hconst Hexec; try discriminate Hconst;
    apply leaving_inv in Hexec; apply Hexec.
Qed.

(** No body of the header uses a member that is not [const]. *)
Lemma method_body_const (q : query) : const_member (method_body q) = true.
Proof. destruct q; reflexivity. Qed.

Lemma subscript_fmap {A B : Type} (f : A -> B) (v : list A) (n : N) :
  vector_subscript (f <$> v) n = outcome_map f (vector_subscript v n).
Proof.
  unfold vector_subscript. rewrite list_lookup_fmap.
  destruct (v !! N.to_nat n); reflexivity.
Qed.

Lemma at_fmap {A B : Type} (f : A -> B) (v : list A) (n : N) :
  vector_at (f <$> v) n = outcome_map f (vector_at v n).
Proof.
  unfold vector_at. rewrite list_lookup_fmap.
  destruct (v !! N.to_nat n); reflexivity.
Qed.

(** Executing the body of a query gives the answer of the accessor. *)
Lemma call_answer (q : query) (mb : MultiBody Body Joint PTransform) :
  call size_bits q mb = leaving mb (answer size_bits q mb).
Proof.
  unfold call.
  destruct q; simpl; unfold nrBodies, nrJoints;
    rewrite ?length_fmap, ?subscript_fmap, ?at_fmap; reflexivity.
Qed.

Lemma call_keeps_object (q : query) (mb : MultiBody Body Joint PTransform)
    (r : reply Body Joint PTransform) (mb' : MultiBody Body Joint PTransform) :
  call size_bits q mb = Some (r, mb') -> mb' = mb.
Proof. apply exec_const_member, method_body_const. Qed.

Lemma calls_keep_object (qs : list query) (mb : MultiBody Body Joint PTransform)
    (rs : list (reply Body Joint PTransform))
    (mb' : MultiBody Body Joint PTransform) :
  calls size_bits qs mb = Some (rs, mb') ->
  mb' = mb /\ Forall2 (fun q r => call size_bits q mb = Some (r, mb)) qs rs.
Proof.
  revert rs. induction qs as [| q qs IH]; intros rs; simpl.
  - intros [= <- <-]. split; [reflexivity | constructor].
  - destruct (call size_bits q mb) as [[r mb1] |] eqn:Hq; [| discriminate].
    apply call_keeps_object in Hq as Hmb1. subst mb1.
    destruct (calls size_bits qs mb) as [[rs1 mb2] |] eqn:Hqs; [| discriminate].
    intros [= <- <-]. destruct (IH rs1 eq_refl) as [-> Hall].
    split; [reflexivity | constructor; assumption].
Qed.

Lemma calls_from_replies (qs : list query) (mb : MultiBody Body Joint PTransform)
    (rs : list (reply Body Joint PTransform)) :
  Forall2 (fun q r => call size_bits q mb = Some (r, mb)) qs rs ->
  calls size_bits qs mb = Some (rs, mb).
Proof.
  induction 1 as [| q r qs rs Hq _ IH]; simpl.
  - reflexivity.
  - rewrite Hq, IH. reflexivity.
Qed.

Lemma replies_permute (mb : MultiBody Body Joint PTransform)
    (qs qs' : list query) :
  qs ≡ₚ qs' ->
  forall rs : list (reply Body Joint PTransform),
    Forall2 (fun q r => call size_bits q mb = Some (r, mb)) qs rs ->
    exists rs',
      Forall2 (fun q r => call size_bits q mb = Some (r, mb)) qs' rs' /\
      zip qs rs ≡ₚ zip qs' rs'.
Proof.
  induction 1 as [| q qs qs' _ IH | q1 q2 qs | qs1 qs2 qs3 _ IH1 _ IH2];
    intros rs Hrs.
  - apply Forall2_nil_inv_l in Hrs as ->. exists []. split; constructor.
  - apply Forall2_cons_inv_l in Hrs as (r & rs1 & Hq & Hrs1 & ->).
    destruct (IH rs1 Hrs1) as (rs1' & Hall & Hperm).
    exists (r :: rs1'). split; [constructor; assumption |].
    simpl. constructor. exact Hperm.
  - apply Forall2_cons_inv_l in Hrs as (r2 & rs1 & Hq2 & Hrs1 & ->).
    apply Forall2_cons_inv_l in Hrs1 as (r1 & rs2 & Hq1 & Hrs2 & ->).
    exists (r1 :: r2 :: rs2). split; [repeat constructor; assumption |].
    simpl. apply perm_swap.
  - destruct (IH1 rs Hrs) as (rs2 & Hall2 & Hperm2).
    destruct (IH2 rs2 Hall2) as (rs3 & Hall3 & Hperm3).
    exists rs3. split; [exact Hall3 |]. etransitivity; eassumption.
Qed.

(** C7. Every query leaves the object unchanged and answers from the object
    alone.  Each member-function body of the header is executed as a step on
    the object, in a semantics where a body can change it (a lookup written
    [table[id]] would); every body of the header uses [const] members only.
    Hence, after any sequence of queries, in any order, that return or
    throw: the object is the one the sequence started from, every stored
    field included; each reply is the one the same query gives on the
    initial object, and it is the accessor's answer there; and the same
    queries made in another order give the same reply query by query. *)
Theorem queries_leave_the_object_unchanged (qs : list query)
    (mb mb' : MultiBody Body Joint PTransform)
    (rs : list (reply Body Joint PTransform)) :
  calls size_bits qs mb = Some (rs, mb') ->
  mb' = mb /\
  (bodies_ mb' = bodies_ mb /\ joints_ mb' = joints_ mb /\
   pred_ mb' = pred_ mb /\ succ_ mb' = succ_ mb /\
   parent_ mb' = parent_ mb /\ Xfrom_ mb' = Xfrom_ mb /\
   Xto_ mb' = Xto_ mb /\ bodyId2Ind_ mb' = bodyId2Ind_ mb /\
   jointId2Ind_ mb' = jointId2Ind_ mb /\
   nrParams_ mb' = nrParams_ mb /\ nrDof_ mb' = nrDof_ mb) /\
  Forall2 (fun q r => call size_bits q mb = Some (r, mb) /\
                      observed (answer size_bits q mb) = Some r) qs rs /\
  (forall qs', qs ≡ₚ qs' ->
     exists rs', calls size_bits qs' mb = Some (rs', mb) /\
                 zip qs rs ≡ₚ zip qs' rs').
Proof.
  intros Hqs. apply calls_keep_object in Hqs as [-> Hall].
  split; [reflexivity |]. split; [repeat split |]. split.
  - eapply Forall2_impl; [exact Hall |].
    intros q r Hq. cbv beta in Hq. split; [exact Hq |].
    rewrite call_answer in Hq. apply leaving_inv in Hq. apply Hq.
  - intros qs' Hperm.
    destruct (replies_permute mb qs qs' Hperm rs Hall) as (rs' & Hall' & Hp).
    exists rs'. split; [apply calls_from_replies, Hall' | exact Hp].
Qed.

End Calls.

(** ** Accessors by index and by id *)

Section Accessors.

Variables int_bits size_bits : Z.
Hypothesis widths : 0 < int_bits <= size_bits.

Context {Body Joint PTransform : Type}.

(** *** Integer conversions *)

Lemma size_modulus_split : 2 ^ size_bits = 2 * 2 ^ (size_bits - 1).
Proof.
  replace size_bits with (Z.succ (size_bits - 1)) at 1 by lia.
  apply Z.pow_succ_r. lia.
Qed.

Lemma int_half_le_size_half : 0 < 2 ^ (int_bits - 1) <= 2 ^ (size_bits - 1).
Proof.
  split.
  - apply Z.pow_pos_nonneg; lia.
  - apply Z.pow_le_mono_r; lia.
Qed.

Lemma to_size_t_nonneg (num : Z) :
  is_int int_bits num -> 0 <= num -> to_size_t size_bits num = Z.to_N num.
Proof.
  intros [_ Hhi] Hlo. unfold to_size_t.
  pose proof size_modulus_split. pose proof int_half_le_size_half.
  rewrite Z.mod_small by lia. reflexivity.
Qed.

Lemma to_size_t_negative (num : Z) :
  is_int int_bits num -> num < 0 ->
  Z.of_N (to_size_t size_bits num) = num + 2 ^ size_bits /\
  max_size size_bits < Z.of_N (to_size_t size_bits num).
Proof.
  intros [Hlo _] Hneg. unfold to_size_t, max_size.
  pose proof size_modulus_split as Hsplit.
  pose proof int_half_le_size_half as Hhalf.
  assert (Hmod : num mod 2 ^ size_bits = num + 2 ^ size_bits).
  { symmetry. apply (Z.mod_unique_pos _ _ (-1)); lia. }
  rewrite Hmod, Z2N.id by lia. lia.
Qed.

(** *** [at] and [operator[]] *)

Lemma vector_in_range {A : Type} (v : list A) (num : Z) :
  is_int int_bits num -> in_range v num ->
  exists a, v !! Z.to_nat num = Some a /\
            vector_at v (to_size_t size_bits num) = Returns a /\
            vector_subscript v (to_size_t size_bits num) = Returns a.
Proof.
  intros Hint [Hlo Hhi].
  destruct (lookup_lt_is_Some_2 v (Z.to_nat num)) as [a Ha]; [lia |].
  exists a. unfold vector_at, vector_subscript.
  rewrite (to_size_t_nonneg num Hint Hlo), Z_N_nat, Ha. auto.
Qed.

Lemma vector_at_past_the_end {A : Type} (v : list A) (n : N) :
  (N.of_nat (length v) <= n)%N -> vector_at v n = Throws out_of_range.
Proof.
  intros Hn. unfold vector_at.
  rewrite (lookup_ge_None_2 v (N.to_nat n)) by lia. reflexivity.
Qed.

Lemma vector_at_out_of_range {A : Type} (v : list A) (num : Z) :
  is_int int_bits num -> vector_ok size_bits v -> ~ in_range v num ->
  vector_at v (to_size_t size_bits num) = Throws out_of_range.
Proof.
  intros Hint Hok Hout. apply vector_at_past_the_end.
  destruct (Z.neg_nonneg_cases num) as [Hneg | Hpos].
  - destruct (to_size_t_negative num Hint Hneg) as [_ Hbig].
    unfold vector_ok in Hok. lia.
  - rewrite (to_size_t_nonneg num Hint Hpos).
    unfold in_range in Hout. lia.
Qed.

Lemma vector_at_negative {A : Type} (v : list A) (num : Z) :
  is_int int_bits num -> num < 0 -> vector_ok size_bits v ->
  negative_is_past_the_end int_bits size_bits v
    (fun i => vector_at v (to_size_t size_bits i)) num.
Proof.
  intros Hint Hneg Hok.
  assert (Hpast : (N.of_nat (length v) < to_size_t size_bits num)%N).
  { destruct (to_size_t_negative num Hint Hneg) as [_ Hbig].
    unfold vector_ok in Hok. lia. }
  pose proof (vector_at_past_the_end v _ (N.lt_le_incl _ _ Hpast)) as Hthrow.
  repeat split; [exact Hpast | exact Hthrow | | ].
  - intros a. rewrite Hthrow. discriminate.
  - intros past Hpi Hpl. rewrite Hthrow.
    apply vector_at_out_of_range; [assumption .. |].
    unfold in_range. lia.
Qed.

(** *** Checked and unchecked accessors *)

(** C3. For every object and every [int] index, each checked accessor
    agrees with its unchecked counterpart wherever the index is within the
    accessor's collection: both return the element stored at that position.
    For every id held by an id table, the checked and the unchecked lookup
    return the same index. *)
Theorem checked_and_unchecked_agree (mb : MultiBody Body Joint PTransform)
    (num : Z) :
  is_int int_bits num ->
  agree_in_range (bodies_ mb) (sBody size_bits mb) (body size_bits mb) num /\
  agree_in_range (joints_ mb) (sJoint size_bits mb) (joint size_bits mb) num /\
  agree_in_range (pred_ mb) (sPredecessor size_bits mb)
    (predecessor size_bits mb) num /\
  agree_in_range (succ_ mb) (sSuccessor size_bits mb)
    (successor size_bits mb) num /\
  agree_in_range (parent_ mb) (sParent size_bits mb) (parent size_bits mb) num /\
  agree_in_range (Xfrom_ mb) (sTransformFrom size_bits mb)
    (transformFrom size_bits mb) num /\
  agree_in_range (Xto_ mb) (sTransformTo size_bits mb)
    (transformTo size_bits mb) num /\
  (forall id, agree_on_id (bodyId2Ind_ mb) (sBodyIndexById mb)
                (bodyIndexById mb) id) /\
  (forall id, agree_on_id (jointId2Ind_ mb) (sJointIndexById mb)
                (jointIndexById mb) id).
Proof.
  intros Hint.
  repeat match goal with
  | |- agree_in_range _ _ _ _ /\ _ =>
      split; [intros Hin; exact (vector_in_range _ num Hint Hin) |]
  end.
  split; intros id [i Hi]; exists i;
    unfold sBodyIndexById, bodyIndexById, sJointIndexById, jointIndexById,
      unordered_map_at, unordered_map_find_second;
    rewrite Hi; auto.
Qed.

(** C4. For every object and every [int] index outside the range of an
    accessor's collection (the collection length itself included), the
    checked accessor throws [out_of_range]. *)
Theorem checked_accessors_throw_out_of_range
    (mb : MultiBody Body Joint PTransform) (num : Z) :
  is_int int_bits num -> MultiBody_ok size_bits mb ->
  (~ in_range (bodies_ mb) num ->
   sBody size_bits mb num = Throws out_of_range) /\
  (~ in_range (joints_ mb) num ->
   sJoint size_bits mb num = Throws out_of_range) /\
  (~ in_range (pred_ mb) num ->
   sPredecessor size_bits mb num = Throws out_of_range) /\
  (~ in_range (succ_ mb) num ->
   sSuccessor size_bits mb num = Throws out_of_range) /\
  (~ in_range (parent_ mb) num ->
   sParent size_bits mb num = Throws out_of_range) /\
  (~ in_range (Xfrom_ mb) num ->
   sTransformFrom size_bits mb num = Throws out_of_range) /\
  (~ in_range (Xto_ mb) num ->
   sTransformTo size_bits mb num = Throws out_of_range).
Proof.
  intros Hint (Hb & Hj & Hp & Hs & Hpa & Hf & Ht).
  repeat split; intros Hout; apply vector_at_out_of_range; assumption.
Qed.

(** C9. For every object and every negative [int] index, the index is
    converted to a position at or past the end of the collection, and each
    checked accessor throws [out_of_range], the outcome it has at any index
    at or past the collection length; it returns no element. *)
Theorem negative_index_is_out_of_range
    (mb : MultiBody Body Joint PTransform) (num : Z) :
  is_int int_bits num -> num < 0 -> MultiBody_ok size_bits mb ->
  negative_is_past_the_end int_bits size_bits (bodies_ mb)
    (sBody size_bits mb) num /\
  negative_is_past_the_end int_bits size_bits (joints_ mb)
    (sJoint size_bits mb) num /\
  negative_is_past_the_end int_bits size_bits (pred_ mb)
    (sPredecessor size_bits mb) num /\
  negative_is_past_the_end int_bits size_bits (succ_ mb)
    (sSuccessor size_bits mb) num /\
  negative_is_past_the_end int_bits size_bits (parent_ mb)
    (sParent size_bits mb) num /\
  negative_is_past_the_end int_bits size_bits (Xfrom_ mb)
    (sTransformFrom size_bits mb) num /\
  negative_is_past_the_end int_bits size_bits (Xto_ mb)
    (sTransformTo size_bits mb) num.
Proof.
  intros Hint Hneg (Hb & Hj & Hp & Hs & Hpa & Hf & Ht).
  repeat match goal with
  | |- negative_is_past_the_end _ _ _ _ _ /\ _ => split
  end; apply vector_at_negative; assumption.
Qed.

(** C5, as amended. For every object and every id absent from the body
    table (respectively the joint table), [sBodyIndexById] (respectively
    [sJointIndexById]) throws [out_of_range]: the same exception the checked
    index accessors throw at an index out of range. *)
Theorem unknown_id_throws_out_of_range
    (mb : MultiBody Body Joint PTransform) (id : Z) :
  (bodyId2Ind_ mb !! id = None ->
   sBodyIndexById mb id = Throws out_of_range) /\
  (jointId2Ind_ mb !! id = None ->
   sJointIndexById mb id = Throws out_of_range) /\
  (forall num, is_int int_bits num -> MultiBody_ok size_bits mb ->
     bodyId2Ind_ mb !! id = None -> ~ in_range (bodies_ mb) num ->
     thrown (sBodyIndexById mb id) = thrown (sBody size_bits mb num)) /\
  (forall num, is_int int_bits num -> MultiBody_ok size_bits mb ->
     jointId2Ind_ mb !! id = None -> ~ in_range (joints_ mb) num ->
     thrown (sJointIndexById mb id) = thrown (sJoint size_bits mb num)).
Proof.
  unfold sBodyIndexById, sJointIndexById, unordered_map_at.
  repeat split.
  - intros ->. reflexivity.
  - intros ->. reflexivity.
  - intros num Hint (Hb & _) -> Hout. unfold sBody.
    rewrite vector_at_out_of_range by assumption. reflexivity.
  - intros num Hint (_ & Hj & _) -> Hout. unfold sJoint.
    rewrite vector_at_out_of_range by assumption. reflexivity.
Qed.

(** *** Whole-sequence views *)

Lemma subscript_returns_iff {A : Type} (v : list A) (num : Z) (a : A) :
  is_int int_bits num -> vector_ok size_bits v ->
  vector_subscript v (to_size_t size_bits num) = Returns a <->
  0 <= num /\ v !! Z.to_nat num = Some a.
Proof.
  intros Hint Hok. unfold vector_subscript.
  destruct (Z.neg_nonneg_cases num) as [Hneg | Hpos].
  - destruct (to_size_t_negative num Hint Hneg) as [_ Hbig].
    unfold vector_ok in Hok.
    rewrite (lookup_ge_None_2 v (N.to_nat (to_size_t size_bits num))) by lia.
    split; [discriminate | lia].
  - rewrite (to_size_t_nonneg num Hint Hpos), Z_N_nat.
    destruct (v !! Z.to_nat num) as [b |]; split.
    + intros [= ->]. auto.
    + intros [_ [= ->]]. reflexivity.
    + discriminate.
    + intros [_ H]. discriminate H.
Qed.

Lemma subscript_agrees_with_view {A : Type} (v : list A) (num : Z) :
  is_int int_bits num ->
  view_agrees size_bits v
    (fun i => vector_subscript v (to_size_t size_bits i)) num.
Proof.
  intros Hint. split.
  - intros Hin. destruct (vector_in_range v num Hint Hin) as (a & Ha & _ & Hsub).
    exists a. auto.
  - intros Hok. split.
    + split.
      * intros [a Ha]. apply (subscript_returns_iff v num a Hint Hok) in Ha.
        destruct Ha as [Hpos Ha]. apply lookup_lt_Some in Ha.
        unfold in_range. lia.
      * intros Hin.
        destruct (vector_in_range v num Hint Hin) as (a & _ & _ & Hsub).
        exists a. exact Hsub.
    + intros a. apply subscript_returns_iff; assumption.
Qed.

(** C10. For every object, [bodies().size()] is [nrBodies()] and
    [joints().size()] is [nrJoints()]; and every whole-sequence view is
    consistent with its per-element accessor at every [int] index: within
    the view, subscripting the view and calling the accessor return the same
    element, the one at that position of the view; the accessor returns
    exactly at the indices within the view (so no view is shorter or longer
    than what its accessor reaches); and whatever the accessor returns is
    the element of the view at that position. *)
Theorem views_agree_with_accessors (mb : MultiBody Body Joint PTransform) :
  N.of_nat (length (bodies mb)) = nrBodies mb /\
  N.of_nat (length (joints mb)) = nrJoints mb /\
  forall num, is_int int_bits num ->
    view_agrees size_bits (bodies mb) (body size_bits mb) num /\
    view_agrees size_bits (joints mb) (joint size_bits mb) num /\
    view_agrees size_bits (predecessors mb) (predecessor size_bits mb) num /\
    view_agrees size_bits (successors mb) (successor size_bits mb) num /\
    view_agrees size_bits (parents mb) (parent size_bits mb) num /\
    view_agrees size_bits (transformsFrom mb) (transformFrom size_bits mb) num /\
    view_agrees size_bits (transformsTo mb) (transformTo size_bits mb) num.
Proof.
  split; [reflexivity |]. split; [reflexivity |].
  intros num Hint.
  repeat match goal with
  | |- view_agrees _ _ _ _ /\ _ => split
  end.
  - exact (subscript_agrees_with_view (bodies_ mb) num Hint).
  - exact (subscript_agrees_with_view (joints_ mb) num Hint).
  - exact (subscript_agrees_with_view (pred_ mb) num Hint).
  - exact (subscript_agrees_with_view (succ_ mb) num Hint).
  - exact (subscript_agrees_with_view (parent_ mb) num Hint).
  - exact (subscript_agrees_with_view (Xfrom_ mb) num Hint).
  - exact (subscript_agrees_with_view (Xto_ mb) num Hint).
Qed.

End Accessors.

(** ** Failure modes of the queries *)

Section FailureModes.

Variable size_bits : Z.
Context {Body Joint PTransform : Type}.

Lemma at_hardens_subscript {A : Type} (v : list A) (n : N) :
  hardens (vector_at v n) (vector_subscript v n).
Proof.
  unfold hardens, vector_at, vector_subscript.
  destruct (v !! N.to_nat n) as [a |]; split; try intros b; split;
    intros H; try discriminate H; auto.
Qed.

Lemma map_at_hardens_find (table : gmap Z Z) (id : Z) :
  hardens (unordered_map_at table id) (unordered_map_find_second table id).
Proof.
  unfold hardens, unordered_map_at, unordered_map_find_second.
  destruct (table !! id) as [i |]; split; try intros b; split;
    intros H; try discriminate H; auto.
Qed.

(** X1. For every object and every argument whatsoever (no range and no
    platform assumption), each safe accessor returns exactly what its
    unchecked counterpart returns, and it throws [out_of_range] exactly
    where the unchecked counterpart has undefined behaviour. *)
Theorem safe_accessors_harden_the_unchecked_ones
    (mb : MultiBody Body Joint PTransform) (num id : Z) :
  hardens (sBody size_bits mb num) (body size_bits mb num) /\
  hardens (sJoint size_bits mb num) (joint size_bits mb num) /\
  hardens (sPredecessor size_bits mb num) (predecessor size_bits mb num) /\
  hardens (sSuccessor size_bits mb num) (successor size_bits mb num) /\
  hardens (sParent size_bits mb num) (parent size_bits mb num) /\
  hardens (sTransformFrom size_bits mb num) (transformFrom size_bits mb num) /\
  hardens (sTransformTo size_bits mb num) (transformTo size_bits mb num) /\
  hardens (sBodyIndexById mb id) (bodyIndexById mb id) /\
  hardens (sJointIndexById mb id) (jointIndexById mb id).
Proof.
  repeat match goal with
  | |- hardens _ _ /\ _ => split
  end;
  first [apply at_hardens_subscript | apply map_at_hardens_find].
Qed.

(** X2. The failure modes of the twenty-nine queries: a safe accessor
    returns or throws [out_of_range], and nothing else; an unchecked
    accessor returns or is undefined, and never throws; every other query
    (the counts, the whole-sequence views, [nrParams], [nrDof]) returns. *)
Theorem failure_modes_of_the_queries (q : query)
    (mb : MultiBody Body Joint PTransform) :
  (safe q = true ->
   returned (answer size_bits q mb) \/
   answer size_bits q mb = Throws out_of_range) /\
  (unchecked q = true ->
   returned (answer size_bits q mb) \/ answer size_bits q mb = Undefined) /\
  (safe q = false -> unchecked q = false -> returned (answer size_bits q mb)) /\
  (forall e, answer size_bits q mb = Throws e ->
             e = out_of_range /\ safe q = true).
Proof.
  unfold returned.
  destruct q; simpl;
    unfold sBody, sJoint, sPredecessor, sSuccessor, sParent, sTransformFrom,
      sTransformTo, sBodyIndexById, sJointIndexById, body, joint, predecessor,
      successor, parent, transformFrom, transformTo, bodyIndexById,
      jointIndexById, vector_at, vector_subscript, unordered_map_at,
      unordered_map_find_second;
    try match goal with
    | |- context [match ?l !! ?i with _ => _ end] => destruct (l !! i)
    end; simpl;
    (split; [| split; [| split]]);
    try discriminate; try (intros; discriminate);
    try (intros; left; eexists; reflexivity);
    try (intros; right; reflexivity);
    try (intros; eexists; reflexivity);
    intros e [= <-]; auto.
Qed.

Lemma unordered_map_at_inj (m1 m2 : gmap Z Z) :
  (forall id, unordered_map_at m1 id = unordered_map_at m2 id) -> m1 = m2.
Proof.
  intros H. apply map_eq. intros id. specialize (H id).
  unfold unordered_map_at in H.
  destruct (m1 !! id), (m2 !! id); congruence.
Qed.

(** X3. The interface has no hidden state: two objects on which every query
    that cannot be undefined (the counts, the views, [nrParams], [nrDof] and
    the safe accessors) gives the same answer are equal, field for field. *)
Theorem queries_determine_the_object
    (mb1 mb2 : MultiBody Body Joint PTransform) :
  (forall q, unchecked q = false ->
             answer size_bits q mb1 = answer size_bits q mb2) ->
  mb1 = mb2.
Proof.
  intros H. destruct mb1, mb2.
  pose proof (H q_bodies eq_refl) as Hb.
  pose proof (H q_joints eq_refl) as Hj.
  pose proof (H q_predecessors eq_refl) as Hp.
  pose proof (H q_successors eq_refl) as Hs.
  pose proof (H q_parents eq_refl) as Hpa.
  pose proof (H q_transformsFrom eq_refl) as Hf.
  pose proof (H q_transformsTo eq_refl) as Ht.
  pose proof (H q_nrParams eq_refl) as Hnp.
  pose proof (H q_nrDof eq_refl) as Hnd.
  simpl in *. unfold bodies, joints, predecessors, successors, parents,
    transformsFrom, transformsTo, nrParams, nrDof in *. simpl in *.
  injection Hb as ->. injection Hj as ->. injection Hp as ->.
  injection Hs as ->. injection Hpa as ->. injection Hf as ->.
  injection Ht as ->. injection Hnp as ->. injection Hnd as ->.
  f_equal; apply unordered_map_at_inj; intros id.
  - specialize (H (q_sBodyIndexById id) eq_refl). simpl in H.
    unfold sBodyIndexById in H. simpl in H.
    destruct (unordered_map_at _ id), (unordered_map_at _ id);
      simpl in H; congruence.
  - specialize (H (q_sJointIndexById id) eq_refl). simpl in H.
    unfold sJointIndexById in H. simpl in H.
    destruct (unordered_map_at _ id), (unordered_map_at _ id);
      simpl in H; congruence.
Qed.

End FailureModes.

(** ** Ranges of the index accessors *)

Section Ranges.

Variables int_bits size_bits : Z.
Hypothesis widths : 0 < int_bits <= size_bits.

Context {Body Joint PTransform : Type}.

Lemma in_range_dec {A : Type} (v : list A) (num : Z) :
  in_range v num \/ ~ in_range v num.
Proof. unfold in_range. lia. Qed.

Lemma subscript_undefined_iff {A : Type} (v : list A) (num : Z) :
  is_int int_bits num -> vector_ok size_bits v ->
  vector_subscript v (to_size_t size_bits num) = Undefined <->
  ~ in_range v num.
Proof.
  intros Hint Hok. split.
  - intros Hund Hin.
    destruct (vector_in_range int_bits size_bits widths v num Hint Hin)
      as (a & _ & _ & Hsub).
    congruence.
  - intros Hout.
    apply (proj2 (at_hardens_subscript v (to_size_t size_bits num))).
    apply (vector_at_out_of_range int_bits size_bits widths); assumption.
Qed.

Lemma at_returned_iff {A : Type} (v : list A) (num : Z) :
  is_int int_bits num -> vector_ok size_bits v ->
  returned (vector_at v (to_size_t size_bits num)) <-> in_range v num.
Proof.
  intros Hint Hok. split.
  - intros [a Ha]. destruct (in_range_dec v num) as [Hin | Hout]; [exact Hin |].
    rewrite (vector_at_out_of_range int_bits size_bits widths v num Hint Hok Hout)
      in Ha.
    discriminate.
  - intros Hin.
    destruct (vector_in_range int_bits size_bits widths v num Hint Hin)
      as (a & _ & Hat & _).
    exists a. exact Hat.
Qed.

Lemma index_loop {A : Type} (v : list A) (accessor : Z -> outcome A) :
  int_indexable int_bits v ->
  (forall num a, is_int int_bits num -> in_range v num ->
                 v !! Z.to_nat num = Some a -> accessor num = Returns a) ->
  enumerates v accessor.
Proof.
  intros Hfit Hacc. unfold enumerates. apply list_eq. intros i.
  rewrite !list_lookup_fmap.
  destruct (v !! i) as [a |] eqn:Hi; simpl.
  - pose proof (lookup_lt_Some _ _ _ Hi) as Hlt.
    rewrite lookup_seq_lt by exact Hlt. simpl. f_equal.
    pose proof (Z.pow_pos_nonneg 2 (int_bits - 1)) as Hpos.
    unfold int_indexable in Hfit.
    apply Hacc.
    + unfold is_int. lia.
    + unfold in_range. lia.
    + rewrite Nat2Z.id. exact Hi.
  - apply lookup_ge_None in Hi.
    rewrite lookup_seq_ge by exact Hi. reflexivity.
Qed.

(** X4. For every object and every [int] index, each unchecked index
    accessor has undefined behaviour exactly when the index is outside its
    collection, a negative index included; each unchecked id lookup is
    undefined exactly when the id is absent from its table. *)
Theorem unchecked_accessors_undefined_outside_range
    (mb : MultiBody Body Joint PTransform) (num : Z) :
  is_int int_bits num -> MultiBody_ok size_bits mb ->
  (body size_bits mb num = Undefined <-> ~ in_range (bodies_ mb) num) /\
  (joint size_bits mb num = Undefined <-> ~ in_range (joints_ mb) num) /\
  (predecessor size_bits mb num = Undefined <-> ~ in_range (pred_ mb) num) /\
  (successor size_bits mb num = Undefined <-> ~ in_range (succ_ mb) num) /\
  (parent size_bits mb num = Undefined <-> ~ in_range (parent_ mb) num) /\
  (transformFrom size_bits mb num = Undefined <->
   ~ in_range (Xfrom_ mb) num) /\
  (transformTo size_bits mb num = Undefined <-> ~ in_range (Xto_ mb) num) /\
  (forall id, bodyIndexById mb id = Undefined <->
              bodyId2Ind_ mb !! id = None) /\
  (forall id, jointIndexById mb id = Undefined <->
              jointId2Ind_ mb !! id = None).
Proof.
  intros Hint (Hb & Hj & Hp & Hs & Hpa & Hf & Ht).
  repeat match goal with
  | |- (_ = Undefined <-> ~ in_range _ _) /\ _ =>
      split; [apply subscript_undefined_iff; assumption |]
  end.
  split; intros id;
    unfold bodyIndexById, jointIndexById, unordered_map_find_second.
  - destruct (bodyId2Ind_ mb !! id); split; intros Hx;
      first [discriminate Hx | reflexivity].
  - destruct (jointId2Ind_ mb !! id); split; intros Hx;
      first [discriminate Hx | reflexivity].
Qed.

(** X5. On an object whose vectors have the documented shape (one [parent]
    per body; one [pred], [succ], [Xfrom], [Xto] per joint), [nrBodies()]
    and [nrJoints()] are the exact bounds of the safe accessors: [sBody] and
    [sParent] return exactly for [0 <= num < nrBodies()], and [sJoint],
    [sPredecessor], [sSuccessor], [sTransformFrom], [sTransformTo] return
    exactly for [0 <= num < nrJoints()]. *)
Theorem counts_bound_the_safe_accessors
    (mb : MultiBody Body Joint PTransform) (num : Z) :
  is_int int_bits num -> MultiBody_ok size_bits mb -> parallel_vectors mb ->
  (returned (sBody size_bits mb num) <-> 0 <= num < Z.of_N (nrBodies mb)) /\
  (returned (sParent size_bits mb num) <-> 0 <= num < Z.of_N (nrBodies mb)) /\
  (returned (sJoint size_bits mb num) <-> 0 <= num < Z.of_N (nrJoints mb)) /\
  (returned (sPredecessor size_bits mb num) <->
   0 <= num < Z.of_N (nrJoints mb)) /\
  (returned (sSuccessor size_bits mb num) <->
   0 <= num < Z.of_N (nrJoints mb)) /\
  (returned (sTransformFrom size_bits mb num) <->
   0 <= num < Z.of_N (nrJoints mb)) /\
  (returned (sTransformTo size_bits mb num) <->
   0 <= num < Z.of_N (nrJoints mb)).
Proof.
  intros Hint (Hb & Hj & Hp & Hs & Hpa & Hf & Ht) (Lpa & Lp & Ls & Lf & Lt).
  unfold sBody, sParent, sJoint, sPredecessor, sSuccessor, sTransformFrom,
    sTransformTo, nrBodies, nrJoints.
  repeat match goal with
  | |- (returned _ <-> _) /\ _ => split
  end;
  (etransitivity; [apply at_returned_iff; assumption |]);
  unfold in_range; lia.
Qed.

(** X6. On an object whose collection sizes fit in an [int], the loop
    [for (int i = 0; i < size; ++i)] over any index accessor, unchecked or
    safe, returns at every step and yields the elements of the matching
    whole-sequence view in order. *)
Theorem index_loops_enumerate_the_views
    (mb : MultiBody Body Joint PTransform) :
  (int_indexable int_bits (bodies mb) ->
   enumerates (bodies mb) (body size_bits mb) /\
   enumerates (bodies mb) (sBody size_bits mb)) /\
  (int_indexable int_bits (joints mb) ->
   enumerates (joints mb) (joint size_bits mb) /\
   enumerates (joints mb) (sJoint size_bits mb)) /\
  (int_indexable int_bits (predecessors mb) ->
   enumerates (predecessors mb) (predecessor size_bits mb) /\
   enumerates (predecessors mb) (sPredecessor size_bits mb)) /\
  (int_indexable int_bits (successors mb) ->
   enumerates (successors mb) (successor size_bits mb) /\
   enumerates (successors mb) (sSuccessor size_bits mb)) /\
  (int_indexable int_bits (parents mb) ->
   enumerates (parents mb) (parent size_bits mb) /\
   enumerates (parents mb) (sParent size_bits mb)) /\
  (int_indexable int_bits (transformsFrom mb) ->
   enumerates (transformsFrom mb) (transformFrom size_bits mb) /\
   enumerates (transformsFrom mb) (sTransformFrom size_bits mb)) /\
  (int_indexable int_bits (transformsTo mb) ->
   enumerates (transformsTo mb) (transformTo size_bits mb) /\
   enumerates (transformsTo mb) (sTransformTo size_bits mb)).
Proof.
  repeat match goal with
  | |- (int_indexable _ _ -> _) /\ _ => split
  end;
  intros Hfit; split; apply (index_loop _ _ Hfit);
    intros num a Hint Hin Ha;
    destruct (vector_in_range int_bits size_bits widths _ num Hint Hin)
      as (a' & Ha' & Hat & Hsub);
    rewrite Ha in Ha'; injection Ha' as <-; assumption.
Qed.

End Ranges.

(** * Worked instances *)

Ltac lp64_int := unfold is_int, lp64_int_bits; simpl; lia.
Ltac within := unfold in_range; simpl; lia.

Lemma lp64_widths : 0 < lp64_int_bits <= lp64_size_bits.
Proof. unfold lp64_int_bits, lp64_size_bits. lia. Qed.

Example scenario1_is_tree3 : scenario1 = Returns tree3.
Proof. reflexivity. Qed.

Example scenario2_counts :
  outcome_map (fun mb => (nrBodies mb, nrJoints mb, nrDof mb)) scenario2
  = Returns (1%N, 1%N, 1).
Proof. reflexivity. Qed.

Lemma tree3_ok : MultiBody_ok lp64_size_bits tree3.
Proof.
  unfold MultiBody_ok, vector_ok, max_size, lp64_size_bits. simpl. lia.
Qed.

(** Scenario 1 of the specification: [nrParams == 2] and [nrDof == 2]. *)
Lemma nrParams_nrDof_are_sums_witness :
  length_invariants bodies1 joints1 pred1 succ1 parent1 Xfrom1 Xto1 /\
  exists mb, scenario1 = Returns mb /\ nrParams mb = 2 /\ nrDof mb = 2.
Proof.
  assert (Hlen : length_invariants bodies1 joints1 pred1 succ1 parent1
                   Xfrom1 Xto1) by (vm_compute; repeat split).
  split; [exact Hlen |].
  destruct (nrParams_nrDof_are_sums pair_Body_id triple_Joint_id
              triple_Joint_params triple_Joint_dof
              bodies1 joints1 pred1 succ1 parent1 Xfrom1 Xto1 Hlen)
    as (mb & Hnew & Hp & Hd).
  exists mb. split; [exact Hnew |]. rewrite Hp, Hd. split; reflexivity.
Defined.

(** Scenario 1 of the specification: the id 20 resolves to 1, and so does
    the id 101. *)
Lemma ids_resolve_to_input_positions_witness :
  length_invariants bodies1 joints1 pred1 succ1 parent1 Xfrom1 Xto1 /\
  exists mb, scenario1 = Returns mb /\
             sBodyIndexById mb 20 = Returns 1 /\
             sJointIndexById mb 101 = Returns 1.
Proof.
  assert (Hlen : length_invariants bodies1 joints1 pred1 succ1 parent1
                   Xfrom1 Xto1) by (vm_compute; repeat split).
  split; [exact Hlen |].
  destruct (ids_resolve_to_input_positions pair_Body_id triple_Joint_id
              triple_Joint_params triple_Joint_dof
              bodies1 joints1 pred1 succ1 parent1 Xfrom1 Xto1 Hlen)
    as (mb & Hnew & Hb & Hj).
  assert (Hnb : NoDup (pair_Body_id <$> bodies1))
    by (apply (bool_decide_unpack _); vm_compute; exact I).
  assert (Hnj : NoDup (triple_Joint_id <$> joints1))
    by (apply (bool_decide_unpack _); vm_compute; exact I).
  exists mb. split; [exact Hnew |]. split.
  - apply (Hb Hnb 1%nat (20, 1)). reflexivity.
  - apply (Hj Hnj 1%nat (101, 1, 1)). reflexivity.
Defined.

(** Three bodies, two parents. *)
Lemma mismatched_lengths_are_rejected_witness :
  ~ length_invariants bodies1 joints1 pred1 succ1 parent_short Xfrom1 Xto1 /\
  new_tree bodies1 joints1 pred1 succ1 parent_short Xfrom1 Xto1
  = Throws StructuralMismatch.
Proof.
  assert (Hbad : ~ length_invariants bodies1 joints1 pred1 succ1 parent_short
                     Xfrom1 Xto1)
    by (unfold length_invariants; simpl; lia).
  split; [exact Hbad |].
  exact (proj1 (mismatched_lengths_are_rejected pair_Body_id triple_Joint_id
                  triple_Joint_params triple_Joint_dof
                  bodies1 joints1 pred1 succ1 parent_short Xfrom1 Xto1 Hbad)).
Defined.

(** Index 1 and id 20 on scenario 1. *)
Lemma checked_and_unchecked_agree_witness :
  is_int lp64_int_bits 1 /\
  sBody lp64_size_bits tree3 1 = Returns (20, 1) /\
  body lp64_size_bits tree3 1 = Returns (20, 1) /\
  sParent lp64_size_bits tree3 1 = parent lp64_size_bits tree3 1 /\
  sTransformTo lp64_size_bits tree3 1 = transformTo lp64_size_bits tree3 1 /\
  sBodyIndexById tree3 20 = Returns 1 /\ bodyIndexById tree3 20 = Returns 1.
Proof.
  assert (Hint : is_int lp64_int_bits 1) by lp64_int.
  split; [exact Hint |].
  destruct (checked_and_unchecked_agree lp64_int_bits lp64_size_bits
              lp64_widths tree3 1 Hint)
    as (Hb & _ & _ & _ & Hp & _ & Ht & Hid & _).
  destruct Hb as (b & Hb & -> & ->); [within |].
  destruct Hp as (p & _ & -> & ->); [within |].
  destruct Ht as (X & _ & -> & ->); [within |].
  destruct (Hid 20) as (i & Hi & -> & ->); [eexists; reflexivity |].
  injection Hb as <-. injection Hi as <-. repeat split.
Defined.

(** The boundary: index 3 on three bodies, and on two joints. *)
Lemma checked_accessors_throw_out_of_range_witness :
  is_int lp64_int_bits 3 /\ MultiBody_ok lp64_size_bits tree3 /\
  nrBodies tree3 = 3%N /\
  sBody lp64_size_bits tree3 3 = Throws out_of_range /\
  sParent lp64_size_bits tree3 3 = Throws out_of_range /\
  sJoint lp64_size_bits tree3 3 = Throws out_of_range.
Proof.
  assert (Hint : is_int lp64_int_bits 3) by lp64_int.
  split; [exact Hint |]. split; [exact tree3_ok |]. split; [reflexivity |].
  destruct (checked_accessors_throw_out_of_range lp64_int_bits lp64_size_bits
              lp64_widths tree3 3 Hint tree3_ok)
    as (Hb & Hj & _ & _ & Hp & _).
  split; [apply Hb | split; [apply Hp | apply Hj]]; within.
Defined.

(** Index -1 on scenario 1: converted to [2 ^ 64 - 1]. *)
Lemma negative_index_is_out_of_range_witness :
  is_int lp64_int_bits (-1) /\ -1 < 0 /\ MultiBody_ok lp64_size_bits tree3 /\
  to_size_t lp64_size_bits (-1) = 18446744073709551615%N /\
  sBody lp64_size_bits tree3 (-1) = Throws out_of_range /\
  sBody lp64_size_bits tree3 3 = sBody lp64_size_bits tree3 (-1) /\
  sTransformFrom lp64_size_bits tree3 (-1) = Throws out_of_range.
Proof.
  assert (Hint : is_int lp64_int_bits (-1))
    by lp64_int.
  assert (Hint3 : is_int lp64_int_bits 3)
    by lp64_int.
  split; [exact Hint |]. split; [lia |]. split; [exact tree3_ok |].
  split; [reflexivity |].
  destruct (negative_index_is_out_of_range lp64_int_bits lp64_size_bits
              lp64_widths tree3 (-1) Hint ltac:(lia) tree3_ok)
    as ((_ & Hb & _ & Hsame) & _ & _ & _ & _ & (_ & Hf & _) & _).
  split; [exact Hb |]. split; [| exact Hf].
  apply (Hsame 3 Hint3). simpl. lia.
Defined.

(** C5, counterexample. On scenario 1 the id 99 is in no table and the index
    3 is out of range for the bodies; the checked id lookups and the checked
    index accessors all end with the one exception [out_of_range]: the
    unknown id is not reported by an error kind of its own. *)
Lemma unknown_id_is_not_a_distinct_error :
  bodyId2Ind_ tree3 !! 99 = None /\ jointId2Ind_ tree3 !! 99 = None /\
  ~ in_range (bodies_ tree3) 3 /\ ~ in_range (joints_ tree3) 3 /\
  thrown (sBodyIndexById tree3 99) = Some out_of_range /\
  thrown (sBody lp64_size_bits tree3 3) = Some out_of_range /\
  thrown (sBodyIndexById tree3 99) = thrown (sBody lp64_size_bits tree3 3) /\
  thrown (sJointIndexById tree3 99) = thrown (sJoint lp64_size_bits tree3 3).
Proof.
  repeat split; try reflexivity; within.
Qed.

Lemma unknown_id_throws_out_of_range_witness :
  0 < lp64_int_bits <= lp64_size_bits /\
  bodyId2Ind_ tree3 !! 99 = None /\
  sBodyIndexById tree3 99 = Throws out_of_range /\
  sJointIndexById tree3 99 = Throws out_of_range /\
  thrown (sBodyIndexById tree3 99) = thrown (sBody lp64_size_bits tree3 3).
Proof.
  assert (Hint : is_int lp64_int_bits 3) by lp64_int.
  split; [unfold lp64_int_bits, lp64_size_bits; lia |].
  split; [reflexivity |].
  destruct (unknown_id_throws_out_of_range lp64_int_bits lp64_size_bits
              lp64_widths tree3 99)
    as (Hb & Hj & Hsame & _).
  split; [apply Hb; reflexivity |]. split; [apply Hj; reflexivity |].
  apply (Hsame 3 Hint tree3_ok); [reflexivity |]. unfold in_range. simpl. lia.
Defined.

(** A run of calls on scenario 1: a count, a checked read past the end, an
    unchecked read in range, a checked id lookup.  The object is unchanged,
    and an unchecked read past the end is undefined. *)
Example calls_on_tree3 :
  calls lp64_size_bits
    [q_nrBodies; q_sBody 3; q_body 1; q_sBodyIndexById 20] tree3
  = Some ([Value (v_size 3); Raised out_of_range; Value (v_Body (20, 1));
           Value (v_int 1)], tree3) /\
  call lp64_size_bits (q_body 3) tree3 = None.
Proof. split; reflexivity. Qed.

(** The semantics does tell a body that changes the object: the lookup
    written [bodyId2Ind_[99]], which no query of the header uses, returns 0
    and leaves an object whose table holds the id 99. *)
Example table_subscript_changes_the_object :
  bodyId2Ind_ tree3 !! 99 = None /\
  exists mb',
    exec lp64_size_bits (return_table_subscript bodyId2Ind_field 99) tree3
    = Some (Value (v_int 0), mb') /\
    bodyId2Ind_ mb' !! 99 = Some 0 /\ mb' <> tree3.
Proof.
  split; [reflexivity |]. eexists. split; [reflexivity |].
  split; [reflexivity |].
  intros Heq. apply (f_equal (fun mb => bodyId2Ind_ mb !! 99)) in Heq.
  vm_compute in Heq. discriminate Heq.
Qed.

(** The run of [calls_on_tree3], and the same calls in the reverse order. *)
Lemma queries_leave_the_object_unchanged_witness :
  calls lp64_size_bits
    [q_nrBodies; q_sBody 3; q_body 1; q_sBodyIndexById 20] tree3
  = Some ([Value (v_size 3); Raised out_of_range; Value (v_Body (20, 1));
           Value (v_int 1)], tree3) /\
  exists rs',
    calls lp64_size_bits
      (reverse [q_nrBodies; q_sBody 3; q_body 1; q_sBodyIndexById 20]) tree3
    = Some (rs', tree3) /\
    zip [q_nrBodies; q_sBody 3; q_body 1; q_sBodyIndexById 20]
        [Value (v_size 3); Raised out_of_range; Value (v_Body (20, 1));
         Value (v_int 1)]
    ≡ₚ zip (reverse [q_nrBodies; q_sBody 3; q_body 1; q_sBodyIndexById 20])
           rs'.
Proof.
  split; [reflexivity |].
  destruct (queries_leave_the_object_unchanged lp64_size_bits
              [q_nrBodies; q_sBody 3; q_body 1; q_sBodyIndexById 20]
              tree3 tree3
              [Value (v_size 3); Raised out_of_range; Value (v_Body (20, 1));
               Value (v_int 1)] eq_refl)
    as (_ & _ & _ & Hperm).
  apply Hperm. symmetry. apply reverse_Permutation.
Defined.

(** Scenario 1: index 2 is within the three bodies and the three parents,
    and past the two predecessors; index 1 reads the second predecessor. *)
Lemma views_agree_with_accessors_witness :
  0 < lp64_int_bits <= lp64_size_bits /\ is_int lp64_int_bits 2 /\
  nrBodies tree3 = 3%N /\ nrJoints tree3 = 2%N /\
  vector_subscript (bodies tree3) (to_size_t lp64_size_bits 2) = Returns (30, 1) /\
  body lp64_size_bits tree3 2 = Returns (30, 1) /\
  vector_subscript (parents tree3) (to_size_t lp64_size_bits 2)
  = parent lp64_size_bits tree3 2 /\
  predecessor lp64_size_bits tree3 1 = Returns 0 /\
  ~ (exists p, predecessor lp64_size_bits tree3 2 = Returns p).
Proof.
  assert (Hint : is_int lp64_int_bits 2) by lp64_int.
  assert (Hint1 : is_int lp64_int_bits 1) by lp64_int.
  assert (Hok : vector_ok lp64_size_bits (predecessors tree3))
    by (destruct tree3_ok as (_ & _ & Hp & _); exact Hp).
  split; [unfold lp64_int_bits, lp64_size_bits; lia |].
  split; [exact Hint |].
  destruct (views_agree_with_accessors lp64_int_bits lp64_size_bits
              lp64_widths tree3) as (Hn & Hm & Hall).
  rewrite <- Hn, <- Hm. split; [reflexivity |]. split; [reflexivity |].
  destruct (Hall 2 Hint) as ((Hb & _) & _ & (_ & Hp2) & _ & (Hp & _) & _).
  destruct (Hall 1 Hint1) as (_ & _ & (_ & Hp1) & _).
  destruct Hb as (b & Hb & -> & ->); [within |].
  destruct Hp as (p & _ & -> & ->); [within |].
  injection Hb as <-.
  split; [reflexivity |]. split; [reflexivity |]. split; [reflexivity |].
  split.
  - apply (proj2 (Hp1 Hok)). split; [lia | reflexivity].
  - intros Hret. apply (proj1 (Hp2 Hok)) in Hret.
    unfold in_range in Hret. simpl in Hret. lia.
Defined.

(** Filling the id tables in another order gives the same answers, hence
    the same object. *)
Lemma queries_determine_the_object_witness :
  (forall q, unchecked q = false ->
             answer lp64_size_bits q tree3
             = answer lp64_size_bits q tree3_refilled) /\
  tree3 = tree3_refilled.
Proof.
  assert (Hsame : forall q, unchecked q = false ->
                    answer lp64_size_bits q tree3
                    = answer lp64_size_bits q tree3_refilled).
  { intros q _. destruct q; try reflexivity; simpl; f_equal;
      unfold sBodyIndexById, sJointIndexById, bodyIndexById, jointIndexById;
      f_equal; apply map_eq; intros k; simpl;
      rewrite !lookup_insert; repeat case_decide; subst; try reflexivity;
      congruence. }
  split; [exact Hsame |].
  exact (queries_determine_the_object lp64_size_bits tree3 tree3_refilled Hsame).
Defined.

(** Index -1 and id 99 on scenario 1, through the unchecked accessors. *)
Lemma unchecked_accessors_undefined_outside_range_witness :
  is_int lp64_int_bits (-1) /\ MultiBody_ok lp64_size_bits tree3 /\
  ~ in_range (bodies_ tree3) (-1) /\
  body lp64_size_bits tree3 (-1) = Undefined /\
  transformTo lp64_size_bits tree3 (-1) = Undefined /\
  bodyIndexById tree3 99 = Undefined.
Proof.
  assert (Hint : is_int lp64_int_bits (-1)) by lp64_int.
  assert (Hout : ~ in_range (bodies_ tree3) (-1)) by within.
  split; [exact Hint |]. split; [exact tree3_ok |]. split; [exact Hout |].
  destruct (unchecked_accessors_undefined_outside_range lp64_int_bits
              lp64_size_bits lp64_widths tree3 (-1) Hint tree3_ok)
    as (Hb & _ & _ & _ & _ & _ & Ht & Hid & _).
  split; [apply Hb, Hout |]. split; [apply Ht; within |].
  apply Hid. reflexivity.
Defined.

(** Index 2 on scenario 1: within the three bodies, past the two joints. *)
Lemma counts_bound_the_safe_accessors_witness :
  is_int lp64_int_bits 2 /\ MultiBody_ok lp64_size_bits tree3 /\
  parallel_vectors tree3 /\
  returned (sBody lp64_size_bits tree3 2) /\
  returned (sParent lp64_size_bits tree3 2) /\
  ~ returned (sPredecessor lp64_size_bits tree3 2).
Proof.
  assert (Hint : is_int lp64_int_bits 2) by lp64_int.
  assert (Hpar : parallel_vectors tree3) by (vm_compute; repeat split).
  split; [exact Hint |]. split; [exact tree3_ok |]. split; [exact Hpar |].
  destruct (counts_bound_the_safe_accessors lp64_int_bits lp64_size_bits
              lp64_widths tree3 2 Hint tree3_ok Hpar)
    as (Hb & Hpa & _ & Hp & _).
  split; [apply Hb; vm_compute; split; [discriminate | reflexivity] |].
  split; [apply Hpa; vm_compute; split; [discriminate | reflexivity] |].
  intros Hret. apply Hp in Hret. vm_compute in Hret.
  destruct Hret as [_ Hlt]. discriminate Hlt.
Defined.

(** The loop over [sBody] and over [parent] on scenario 1. *)
Lemma index_loops_enumerate_the_views_witness :
  0 < lp64_int_bits <= lp64_size_bits /\
  int_indexable lp64_int_bits (bodies tree3) /\
  (fun i : nat => sBody lp64_size_bits tree3 (Z.of_nat i)) <$> seq 0 3
  = [Returns (10, 1); Returns (20, 1); Returns (30, 1)] /\
  (fun i : nat => parent lp64_size_bits tree3 (Z.of_nat i)) <$> seq 0 3
  = [Returns (-1); Returns 0; Returns 0].
Proof.
  assert (Hfit : int_indexable lp64_int_bits (bodies tree3))
    by (unfold int_indexable, lp64_int_bits; simpl; lia).
  assert (Hfit' : int_indexable lp64_int_bits (parents tree3))
    by (unfold int_indexable, lp64_int_bits; simpl; lia).
  split; [exact lp64_widths |]. split; [exact Hfit |].
  destruct (index_loops_enumerate_the_views lp64_int_bits lp64_size_bits
              lp64_widths tree3) as (Hb & _ & _ & _ & Hp & _).
  split; [exact (proj2 (Hb Hfit)) | exact (proj1 (Hp Hfit'))].
Defined.
